(** * Federation hub: vector clocks, sync cycle and conflict resolution

    A shallow embedding of [federation-hub.ts] (package
    [@claude-flow/federation]) and of the types of [types.ts] it uses.

    - A [VectorClock] is a JS object used as a map from agent ids to
      logical timestamps: a [gmap string N].  The entries are counters:
      they start at 0 and the hub only ever adds one to them or takes the
      maximum of two.  Key order is not observable through the functions
      below, absent keys are [undefined].
    - Wall-clock values ([Date.now()], [timestamp], [durationMs]) are
      integers, [Z].
    - The hub is a mutable object whose methods may throw: its methods are
      computations in a state-and-exception monad over a [World], which
      holds the hub's fields and the traces of what the hub did to its
      collaborators (events delivered, updates handed to [applyUpdate],
      messages handed to the transport).
    - Logging has no effect on the hub and is left out. *)

From Stdlib Require Import ZArith NArith QArith.
From stdpp Require Import base option list strings gmap fin_maps fin_sets sorting.

Set Default Proof Using "Type".
Set Warnings "-clear-no-such-hyp".

(* ====================================================================== *)
(** ** Vector clock utilities *)
(* ====================================================================== *)

Module Clock.
Local Open Scope N_scope.

Abbreviation VectorClock := (gmap string N).

Inductive ClockComparison : Set := before | after | concurrent | equal.

#[global] Instance ClockComparison_eq_dec : EqDecision ClockComparison.
Proof. solve_decision. Defined.

(** JS [x || 0] on a clock entry: [undefined] and [0] are falsy. *)
Definition or0 (x : option N) : N :=
  match x with
  | Some t => if decide (t = 0) then 0 else t
  | None => 0
  end.

(** [new Set([...Object.keys(a), ...Object.keys(b)])] *)
Definition allAgents (a b : VectorClock) : gset string := dom a ∪ dom b.

(** One iteration of the loop of [compareVectorClocks]; the pair is
    [(aHasNewer, bHasNewer)]. *)
Definition compareStep (a b : VectorClock) (agentId : string)
    (flags : bool * bool) : bool * bool :=
  let aTime := or0 (a !! agentId) in
  let bTime := or0 (b !! agentId) in
  if bTime <? aTime then (true, flags.2)
  else if aTime <? bTime then (flags.1, true)
  else flags.

Definition compareFlags (a b : VectorClock) : bool * bool :=
  set_fold (compareStep a b) (false, false) (allAgents a b).

Definition compareVectorClocks (a b : VectorClock) : ClockComparison :=
  let '(aHasNewer, bHasNewer) := compareFlags a b in
  if aHasNewer && bHasNewer then concurrent
  else if aHasNewer then after
  else if bHasNewer then before
  else equal.

(** [result = {...a}; for ([agentId, timestamp] of Object.entries(b))
    result[agentId] = Math.max(result[agentId] || 0, timestamp)] *)
Definition mergeVectorClocks (a b : VectorClock) : VectorClock :=
  map_fold (λ agentId timestamp result,
              <[agentId := N.max (or0 (result !! agentId)) timestamp]> result)
           a b.

(** [{...clock, [agentId]: (clock[agentId] || 0) + 1}] *)
Definition incrementVectorClock (clock : VectorClock) (agentId : string)
    : VectorClock :=
  <[agentId := or0 (clock !! agentId) + 1]> clock.

(** The reading of a dimension used by the specification: an absent key
    counts as 0. *)
Definition dim (c : VectorClock) (agentId : string) : N :=
  default 0 (c !! agentId).




End Clock.

(* ====================================================================== *)
(** ** Federation types ([types.ts]) *)
(* ====================================================================== *)

Module Types.
Export Clock.

(** ['insert' | 'update' | 'delete'] *)
Inductive SyncOperation : Set := OpInsert | OpUpdate | OpDelete.

(** ['pull' | 'push' | 'ack' | 'nack'] *)
Inductive SyncMessageType : Set := pull | push | ack | nack.

(** [Record<string, unknown>]: the hub never looks inside a payload. *)
Definition Payload : Type := list (string * string).

Record SyncUpdate : Type := mkSyncUpdate {
  upd_id : string;
  upd_operation : SyncOperation;
  upd_data : option Payload;
  upd_vectorClock : VectorClock;
  upd_timestamp : Z
}.

(** [requestId] is never set by the hub and is left out. *)
Record SyncMessage : Type := mkSyncMessage {
  msg_type : SyncMessageType;
  msg_agentId : string;
  msg_tenantId : string;
  msg_vectorClock : VectorClock;
  msg_timestamp : Z;
  msg_data : option (list SyncUpdate)
}.

(** ['local' | 'remote' | 'merge' | 'skip'] *)
Inductive Resolution : Set := ResLocal | ResRemote | ResMerge | ResSkip.

Record ConflictInfo : Type := mkConflictInfo {
  recordId : string;
  localVersion : SyncUpdate;
  remoteVersion : SyncUpdate;
  resolution : Resolution;
  reason : string
}.

Record SyncResult : Type := mkSyncResult {
  success : bool;
  pullCount : nat;
  pushCount : nat;
  conflictCount : nat;
  resolvedConflicts : list ConflictInfo;
  durationMs : Z;
  res_vectorClock : VectorClock
}.

(** [avgSyncDurationMs] is a quotient of integers; it is kept as the exact
    rational, the rounding of JS doubles is not modelled. *)
Record SyncStats : Type := mkSyncStats {
  stat_lastSyncTime : Z;
  totalSyncs : nat;
  totalPulled : nat;
  totalPushed : nat;
  totalConflicts : nat;
  totalResolved : nat;
  avgSyncDurationMs : Q
}.

Inductive FederationEvent : Type :=
  | ev_connected (agentId endpoint : string)
  | ev_disconnected (agentId : string)
  | sync_started (agentId : string)
  | sync_completed (agentId : string) (result : SyncResult)
  | sync_failed (agentId : string) (error : string)
  | conflict_detected (recordId : string) (local remote : VectorClock)
  | conflict_resolved (recordId : string) (resolution : Resolution)
  | agent_joined (agentId agentType : string)
  | agent_left (agentId reason : string).

(** The configuration as the caller gives it: optional fields are
    [option]s. [conflictResolution] is a string at run time; the type names
    ['last-write-wins'], ['first-write-wins'], ['custom'] and ['merge']. *)
Record FederationHubConfig : Type := mkFederationHubConfig {
  cfg_endpoint : string;
  cfg_agentId : string;
  cfg_tenantId : string;
  cfg_token : string;
  cfg_enableMTLS : option bool;
  cfg_certPath : option string;
  cfg_keyPath : option string;
  cfg_caPath : option string;
  cfg_syncInterval : option Z;
  cfg_conflictResolution : option string
}.

(** [Required<FederationHubConfig>] *)
Record Config : Type := mkConfig {
  endpoint : string;
  agentId : string;
  tenantId : string;
  token : string;
  enableMTLS : bool;
  certPath : string;
  keyPath : string;
  caPath : string;
  syncInterval : Z;
  conflictResolution : string
}.

End Types.

(* ====================================================================== *)
(** ** The hub ([federation-hub.ts]) *)
(* ====================================================================== *)

Module Hub.
Export Types.
Local Open Scope Z_scope.

(** The private fields of [FederationHub].  The listener set is
    represented by the trace of delivered events in [World]. *)
Record FederationHub : Type := mkFederationHub {
  config : Config;
  connected : bool;
  vectorClock : VectorClock;
  lastSyncTime : Z;
  changeLog : list SyncUpdate;
  stats : SyncStats;
  syncDurations : list Z
}.

(** The hub together with what it has done to its surroundings, oldest
    first: events passed to [emitEvent], updates passed to [applyUpdate],
    messages passed to [sendSyncMessage], and how often [Date.now()] was
    read. *)
Record World : Type := mkWorld {
  hub : FederationHub;
  emitted : list FederationEvent;
  applied : list SyncUpdate;
  sent : list SyncMessage;
  clockReads : nat
}.

(** A call either returns or throws an error with a message; the world it
    leaves behind is kept in both cases. *)
Inductive Outcome (A : Type) : Type :=
  | Returned (a : A)
  | Thrown (message : string).
Arguments Returned {A} a.
Arguments Thrown {A} message.

(** The surroundings of the hub: the transport behind [sendSyncMessage]
    (in the source a stand-in that answers every message with [[]]) and the
    wall clock, as the successive values of [Date.now()]. *)
Record Env : Type := mkEnv {
  transport : SyncMessage → Outcome (list SyncUpdate);
  wallClock : nat → Z
}.

Definition Eff (A : Type) : Type := World → Outcome A * World.

Definition ret {A} (a : A) : Eff A := λ w, (Returned a, w).
Definition throw {A} (message : string) : Eff A := λ w, (Thrown message, w).
Definition bind {A B} (c : Eff A) (k : A → Eff B) : Eff B :=
  λ w, match c w with
       | (Returned a, w') => k a w'
       | (Thrown e, w') => (Thrown e, w')
       end.
(** [try { c } catch (error) { handler(error.message) }] *)
Definition tryCatch {A} (c : Eff A) (handler : string → Eff A) : Eff A :=
  λ w, match c w with
       | (Returned a, w') => (Returned a, w')
       | (Thrown e, w') => handler e w'
       end.

Notation "x <~ c ; k" := (bind c (λ x, k))
  (at level 20, c at level 100, k at level 200, only parsing).

Definition getHub : Eff FederationHub := λ w, (Returned (hub w), w).

Definition modifyHub (f : FederationHub → FederationHub) : Eff unit :=
  λ w, (Returned tt,
        mkWorld (f (hub w)) (emitted w) (applied w) (sent w) (clockReads w)).

(** Field assignments [this.x = v]. *)
Definition set_connected (v : bool) (h : FederationHub) : FederationHub :=
  mkFederationHub (config h) v (vectorClock h) (lastSyncTime h)
                  (changeLog h) (stats h) (syncDurations h).
Definition set_vectorClock (v : VectorClock) (h : FederationHub)
    : FederationHub :=
  mkFederationHub (config h) (connected h) v (lastSyncTime h)
                  (changeLog h) (stats h) (syncDurations h).
Definition set_lastSyncTime (v : Z) (h : FederationHub) : FederationHub :=
  mkFederationHub (config h) (connected h) (vectorClock h) v
                  (changeLog h) (stats h) (syncDurations h).
Definition set_changeLog (v : list SyncUpdate) (h : FederationHub)
    : FederationHub :=
  mkFederationHub (config h) (connected h) (vectorClock h) (lastSyncTime h)
                  v (stats h) (syncDurations h).
Definition set_stats (v : SyncStats) (h : FederationHub) : FederationHub :=
  mkFederationHub (config h) (connected h) (vectorClock h) (lastSyncTime h)
                  (changeLog h) v (syncDurations h).
Definition set_syncDurations (v : list Z) (h : FederationHub)
    : FederationHub :=
  mkFederationHub (config h) (connected h) (vectorClock h) (lastSyncTime h)
                  (changeLog h) (stats h) v.

(** [Date.now()] *)
Definition dateNow (env : Env) : Eff Z :=
  λ w, (Returned (wallClock env (clockReads w)),
        mkWorld (hub w) (emitted w) (applied w) (sent w) (S (clockReads w))).

(** [emitEvent]: every registered listener and the emitter's own
    subscribers are handed the event; a listener that throws is caught. *)
Definition emitEvent (event : FederationEvent) : Eff unit :=
  λ w, (Returned tt,
        mkWorld (hub w) (emitted w ++ [event]) (applied w) (sent w)
                (clockReads w)).

(** [applyUpdate]: the hand-over to storage; in the source it only logs. *)
Definition applyUpdate (update : SyncUpdate) : Eff unit :=
  λ w, (Returned tt,
        mkWorld (hub w) (emitted w) (applied w ++ [update]) (sent w)
                (clockReads w)).

(** [sendSyncMessage]: the transport answers or throws. *)
Definition sendSyncMessage (env : Env) (message : SyncMessage)
    : Eff (list SyncUpdate) :=
  λ w, (transport env message,
        mkWorld (hub w) (emitted w) (applied w) (sent w ++ [message])
                (clockReads w)).

(** The body of [sendSyncMessage] as the source has it: an empty answer. *)
Definition simulatedTransport : SyncMessage → Outcome (list SyncUpdate) :=
  λ _, Returned [].

Definition notConnected : string := "Not connected to federation hub".

(** The constructor. *)
Definition initialStats : SyncStats := mkSyncStats 0 0 0 0 0 0 0%Q.

Definition resolveConfig (c : FederationHubConfig) : Config :=
  mkConfig (cfg_endpoint c) (cfg_agentId c) (cfg_tenantId c) (cfg_token c)
           (default true (cfg_enableMTLS c))
           (default "" (cfg_certPath c))
           (default "" (cfg_keyPath c))
           (default "" (cfg_caPath c))
           (default 30000 (cfg_syncInterval c))
           (default "last-write-wins" (cfg_conflictResolution c)).

Definition createFederationHub (c : FederationHubConfig) : FederationHub :=
  mkFederationHub (resolveConfig c) false
                  (<[cfg_agentId c := 0%N]> (∅ : VectorClock))
                  0 [] initialStats [].

Definition newWorld (c : FederationHubConfig) : World :=
  mkWorld (createFederationHub c) [] [] [] 0.

Definition connect (env : Env) : Eff unit :=
  h <~ getHub;
  if connected h then ret tt
  else
    _ <~ modifyHub (set_connected true);
    now <~ dateNow env;
    _ <~ modifyHub (set_lastSyncTime now);
    emitEvent (ev_connected (agentId (config h)) (endpoint (config h))).

Definition disconnect : Eff unit :=
  h <~ getHub;
  if negb (connected h) then ret tt
  else
    _ <~ modifyHub (set_connected false);
    emitEvent (ev_disconnected (agentId (config h))).

(** The right operand of the timestamp tests of [resolveConflict]: a number
    or [Infinity]. *)
Inductive Num : Set := Finite (z : Z) | Infinity.

(** JS [x || d] on an optional number: [undefined] and [0] give [d]. *)
Definition orElse (x : option Z) (d : Num) : Num :=
  match x with
  | Some t => if decide (t = 0) then d else Finite t
  | None => d
  end.

(** [a > b] and [a < b] *)
Definition gtNum (a : Z) (b : Num) : bool :=
  match b with Finite z => z <? a | Infinity => false end.
Definition ltNum (a : Z) (b : Num) : bool :=
  match b with Finite z => a <? z | Infinity => true end.

(** [this.changeLog.find(u => u.id === remoteUpdate.id)] *)
Definition findLocalVersion (log : list SyncUpdate) (recordId : string)
    : option SyncUpdate :=
  find (λ u, bool_decide (upd_id u = recordId)) log.

Definition resolveConflict (env : Env) (remoteUpdate : SyncUpdate)
    : Eff ConflictInfo :=
  h <~ getHub;
  let found := findLocalVersion (changeLog h) (upd_id remoteUpdate) in
  localOrPlaceholder <~
    match found with
    | Some u => ret u
    | None =>
        now <~ dateNow env;
        ret (mkSyncUpdate (upd_id remoteUpdate) OpUpdate None
                          (vectorClock h) now)
    end;
  let conflictInfo :=
    mkConflictInfo (upd_id remoteUpdate) localOrPlaceholder remoteUpdate in
  let localTimestamp := upd_timestamp <$> found in
  let strategy := conflictResolution (config h) in
  ret (if decide (strategy = "last-write-wins") then
         if gtNum (upd_timestamp remoteUpdate)
                  (orElse localTimestamp (Finite 0))
         then conflictInfo ResRemote "Remote has newer timestamp"
         else conflictInfo ResLocal "Local has newer timestamp"
       else if decide (strategy = "first-write-wins") then
         if ltNum (upd_timestamp remoteUpdate)
                  (orElse localTimestamp Infinity)
         then conflictInfo ResRemote "Remote has older timestamp"
         else conflictInfo ResLocal "Local has older timestamp"
       else if decide (strategy = "merge") then
         conflictInfo ResMerge "Merged local and remote data"
       else
         conflictInfo ResSkip "No resolution strategy").

(** [db], an opaque handle that is only passed on to [applyUpdate], is
    left out. *)
Definition processRemoteUpdate (env : Env) (update : SyncUpdate)
    : Eff (option ConflictInfo) :=
  h <~ getHub;
  let comparison :=
    compareVectorClocks (vectorClock h) (upd_vectorClock update) in
  if decide (comparison = concurrent) then
    _ <~ emitEvent (conflict_detected (upd_id update) (vectorClock h)
                                      (upd_vectorClock update));
    conflict <~ resolveConflict env update;
    _ <~ emitEvent (conflict_resolved (upd_id update) (resolution conflict));
    ret (Some conflict)
  else
    _ <~ applyUpdate update;
    _ <~ modifyHub (λ h', set_vectorClock
                            (mergeVectorClocks (vectorClock h')
                                               (upd_vectorClock update)) h');
    ret None.

(** [for (const update of remoteUpdates) { ... conflicts.push(conflict) }] *)
Fixpoint processRemoteUpdates (env : Env) (remoteUpdates : list SyncUpdate)
    (conflicts : list ConflictInfo) : Eff (list ConflictInfo) :=
  match remoteUpdates with
  | [] => ret conflicts
  | update :: rest =>
      conflict <~ processRemoteUpdate env update;
      processRemoteUpdates env rest
        (match conflict with
         | Some c => conflicts ++ [c]
         | None => conflicts
         end)
  end.

Definition sumDurations (durations : list Z) : Z := fold_left Z.add durations 0.

Definition set_avgSyncDurationMs (v : Q) (s : SyncStats) : SyncStats :=
  mkSyncStats (stat_lastSyncTime s) (totalSyncs s) (totalPulled s)
              (totalPushed s) (totalConflicts s) (totalResolved s) v.

Definition updateAvgDuration (durationMs : Z) : Eff unit :=
  modifyHub (λ h,
    let pushed := syncDurations h ++ [durationMs] in
    let kept := if (100 <? length pushed)%nat then tail pushed else pushed in
    set_stats
      (set_avgSyncDurationMs
         (inject_Z (sumDurations kept) / inject_Z (Z.of_nat (length kept)))%Q
         (stats h))
      (set_syncDurations kept h)).

Definition pullMessage (h : FederationHub) (now : Z) : SyncMessage :=
  mkSyncMessage pull (agentId (config h)) (tenantId (config h))
                (vectorClock h) now None.

Definition pushMessage (h : FederationHub) (now : Z)
    (updates : list SyncUpdate) : SyncMessage :=
  mkSyncMessage push (agentId (config h)) (tenantId (config h))
                (vectorClock h) now (Some updates).

(** [c.resolution !== 'skip'] *)
Definition notSkipped (c : ConflictInfo) : bool :=
  match resolution c with ResSkip => false | _ => true end.

(** The statistics block of [sync]. *)
Definition commitStats (pulled pushed : nat) (conflicts : list ConflictInfo)
    (h : FederationHub) : FederationHub :=
  let s := stats h in
  set_stats
    (mkSyncStats (lastSyncTime h)
                 (totalSyncs s + 1)
                 (totalPulled s + pulled)
                 (totalPushed s + pushed)
                 (totalConflicts s + length conflicts)
                 (totalResolved s + length (filter (λ c, notSkipped c = true) conflicts))
                 (avgSyncDurationMs s))
    h.

(** The [try] block of [sync]. *)
Definition syncCycle (env : Env) (startTime : Z) : Eff SyncResult :=
  _ <~ modifyHub (λ h, set_vectorClock
                         (incrementVectorClock (vectorClock h)
                                               (agentId (config h))) h);
  h <~ getHub;
  now <~ dateNow env;
  remoteUpdates <~ sendSyncMessage env (pullMessage h now);
  conflicts <~ processRemoteUpdates env remoteUpdates [];
  h <~ getHub;
  let localChanges := changeLog h in
  _ <~ (if (0 <? length localChanges)%nat then
          now <~ dateNow env;
          _ <~ sendSyncMessage env (pushMessage h now localChanges);
          modifyHub (set_changeLog [])
        else ret tt);
  finished <~ dateNow env;
  let durationMs := finished - startTime in
  now <~ dateNow env;
  _ <~ modifyHub (set_lastSyncTime now);
  _ <~ modifyHub (commitStats (length remoteUpdates) (length localChanges)
                              conflicts);
  _ <~ updateAvgDuration durationMs;
  h <~ getHub;
  let result :=
    mkSyncResult true (length remoteUpdates) (length localChanges)
                 (length conflicts) conflicts durationMs (vectorClock h) in
  _ <~ emitEvent (sync_completed (agentId (config h)) result);
  ret result.

Definition sync (env : Env) : Eff SyncResult :=
  h <~ getHub;
  if negb (connected h) then throw notConnected
  else
    startTime <~ dateNow env;
    _ <~ emitEvent (sync_started (agentId (config h)));
    tryCatch (syncCycle env startTime)
             (λ message,
                _ <~ emitEvent (sync_failed (agentId (config h)) message);
                throw message).

Definition set_totalPushed (v : nat) (s : SyncStats) : SyncStats :=
  mkSyncStats (stat_lastSyncTime s) (totalSyncs s) (totalPulled s)
              v (totalConflicts s) (totalResolved s) (avgSyncDurationMs s).
Definition set_totalPulled (v : nat) (s : SyncStats) : SyncStats :=
  mkSyncStats (stat_lastSyncTime s) (totalSyncs s) v
              (totalPushed s) (totalConflicts s) (totalResolved s)
              (avgSyncDurationMs s).

Definition forcePush (env : Env) (updates : list SyncUpdate) : Eff unit :=
  h <~ getHub;
  if negb (connected h) then throw notConnected
  else
    now <~ dateNow env;
    _ <~ sendSyncMessage env (pushMessage h now updates);
    modifyHub (λ h', set_stats
                       (set_totalPushed
                          (totalPushed (stats h') + length updates)
                          (stats h')) h').

Definition forcePull (env : Env) : Eff (list SyncUpdate) :=
  h <~ getHub;
  if negb (connected h) then throw notConnected
  else
    now <~ dateNow env;
    updates <~ sendSyncMessage env (pullMessage h now);
    _ <~ modifyHub (λ h', set_stats
                            (set_totalPulled
                               (totalPulled (stats h') + length updates)
                               (stats h')) h');
    ret updates.

(** [recordChange] overwrites the clock and the timestamp of the update it
    is given and appends that update to the change log. *)
Definition stamp (update : SyncUpdate) (clock : VectorClock) (now : Z)
    : SyncUpdate :=
  mkSyncUpdate (upd_id update) (upd_operation update) (upd_data update)
               clock now.

Definition recordChange (env : Env) (update : SyncUpdate) : Eff unit :=
  h <~ getHub;
  now <~ dateNow env;
  _ <~ modifyHub (λ h', set_changeLog
                          (changeLog h' ++ [stamp update (vectorClock h) now])
                          h');
  modifyHub (λ h', set_vectorClock
                     (incrementVectorClock (vectorClock h')
                                           (agentId (config h'))) h').

(* ---------------------------------------------------------------------- *)
(** *** What a pull leaves behind, as functions of the pulled updates *)

(** The remote updates that are not concurrent with the hub's clock at the
    moment they are processed, in the order received, and the hub's clock
    after all of them. *)
Fixpoint nonConflicting (clock : VectorClock) (remoteUpdates : list SyncUpdate)
    : list SyncUpdate :=
  match remoteUpdates with
  | [] => []
  | update :: rest =>
      if decide (compareVectorClocks clock (upd_vectorClock update)
                 = concurrent)
      then nonConflicting clock rest
      else update :: nonConflicting
                       (mergeVectorClocks clock (upd_vectorClock update)) rest
  end.

Fixpoint clockAfter (clock : VectorClock) (remoteUpdates : list SyncUpdate)
    : VectorClock :=
  match remoteUpdates with
  | [] => clock
  | update :: rest =>
      if decide (compareVectorClocks clock (upd_vectorClock update)
                 = concurrent)
      then clockAfter clock rest
      else clockAfter (mergeVectorClocks clock (upd_vectorClock update)) rest
  end.

Fixpoint conflicting (clock : VectorClock) (remoteUpdates : list SyncUpdate)
    : list SyncUpdate :=
  match remoteUpdates with
  | [] => []
  | update :: rest =>
      if decide (compareVectorClocks clock (upd_vectorClock update)
                 = concurrent)
      then update :: conflicting clock rest
      else conflicting (mergeVectorClocks clock (upd_vectorClock update)) rest
  end.

(** The two events that accompany a conflict. *)
Definition isConflictEvent (e : FederationEvent) : Prop :=
  match e with
  | conflict_detected _ _ _ | conflict_resolved _ _ => True
  | _ => False
  end.


End Hub.

(* ====================================================================== *)
(** ** Concrete hubs, updates and surroundings used in the examples *)
(* ====================================================================== *)

Module Scenarios.
Export Hub.
Local Open Scope Z_scope.

(** A hub for agent ["A"] with every optional setting left to its default
    (so the strategy is ['last-write-wins']), and the same hub configured
    with a given strategy. *)
Definition cfgA : FederationHubConfig :=
  mkFederationHubConfig "quic://hub.example:4433" "A" "tenant-1" "token"
                        None None None None None None.
Definition cfgWith (strategy : string) : FederationHubConfig :=
  mkFederationHubConfig "quic://hub.example:4433" "A" "tenant-1" "token"
                        None None None None None (Some strategy).

(** The clock [{A: 0, B: 1}]. *)
Definition clockA0B1 : VectorClock := <["A" := 0%N]> (<["B" := 1%N]> ∅).

(** A remote update of record ["r1"] made at clock [{A: 0, B: 1}] and wall
    time 5, and a remote update that is causally ahead of a fresh hub. *)
Definition remoteR1 : SyncUpdate :=
  mkSyncUpdate "r1" OpUpdate None clockA0B1 5.
Definition remoteAhead : SyncUpdate :=
  mkSyncUpdate "r2" OpInsert None (<["A" := 7%N]> (<["B" := 1%N]> ∅)) 6.

(** A local change to record ["r1"], as the caller hands it to
    [recordChange]. *)
Definition localR1 : SyncUpdate := mkSyncUpdate "r1" OpUpdate None ∅ 0.

(** A transport that answers a pull with [remoteUpdates] and anything else
    with nothing, under a wall clock that starts at [start] and advances by
    one millisecond per reading. *)
Definition envPull (remoteUpdates : list SyncUpdate) (start : Z) : Env :=
  mkEnv (λ m, match msg_type m with
              | pull => Returned remoteUpdates
              | _ => Returned []
              end)
        (λ n, start + Z.of_nat n).

(** The transport of the source, which answers every message with [[]]. *)
Definition envSimulated : Env :=
  mkEnv simulatedTransport (λ n, 1000 + Z.of_nat n).


(** [f] and then [g] on the same hub. *)
Definition andThen {A B} (f : Eff A) (g : Eff B) : Eff B := bind f (λ _, g).

(** A connected hub for ["A"] with one recorded, not yet pushed change. *)
Definition connectedWithChange : World :=
  (andThen (connect envSimulated) (recordChange envSimulated localR1)
     (newWorld cfgA)).2.

End Scenarios.

(* ====================================================================== *)
(** ** Sequences of calls on one hub *)
(* ====================================================================== *)

Module Calls.
Export Hub.

(** The public methods that change the hub.  A caller may issue them in
    any order and keeps the hub when a call throws. *)
Inductive Call : Type :=
  | CallConnect
  | CallDisconnect
  | CallSync
  | CallForcePush (updates : list SyncUpdate)
  | CallForcePull
  | CallRecordChange (update : SyncUpdate).

(** The world after one call, whatever its outcome. *)
Definition runCall (env : Env) (c : Call) (w : World) : World :=
  match c with
  | CallConnect => (connect env w).2
  | CallDisconnect => (disconnect w).2
  | CallSync => (sync env w).2
  | CallForcePush updates => (forcePush env updates w).2
  | CallForcePull => (forcePull env w).2
  | CallRecordChange update => (recordChange env update w).2
  end.

(** Calls in sequence, each with the surroundings it meets. *)
Fixpoint runCalls (calls : list (Env * Call)) (w : World) : World :=
  match calls with
  | [] => w
  | (env, c) :: rest => runCalls rest (runCall env c w)
  end.


(** One clock is at most another when no dimension of it is above the
    other's (absent keys read as 0). *)
Definition clockLe (a b : VectorClock) : Prop := ∀ k, (dim a k ≤ dim b k)%N.


(** The window of durations holds one entry per completed cycle, up to
    100. *)
Definition windowMatchesSyncs (h : FederationHub) : Prop :=
  length (syncDurations h) = Nat.min (totalSyncs (stats h)) 100.


Definition countersOrdered (h : FederationHub) : Prop :=
  (totalResolved (stats h) ≤ totalConflicts (stats h))%nat ∧
  (totalConflicts (stats h) ≤ totalPulled (stats h))%nat.



Definition isDetected (e : FederationEvent) : bool :=
  match e with conflict_detected _ _ _ => true | _ => false end.

End Calls.

(* ====================================================================== *)
(** ** Facts about the vector clock utilities *)
(* ====================================================================== *)

Section ClockFacts.
Import Clock.
Local Open Scope N_scope.
Implicit Types a b c clock : VectorClock.
Implicit Types k agentId : string.

Lemma or0_dim clock k : or0 (clock !! k) = dim clock k.
Proof.
  unfold or0, dim. destruct (clock !! k) as [t|]; simpl; [|done].
  case_decide; congruence.
Qed.








Lemma mergeVectorClocks_lookup a b k :
  mergeVectorClocks a b !! k =
    match b !! k with
    | Some t => Some (N.max (dim a k) t)
    | None => a !! k
    end.
Proof.
  unfold mergeVectorClocks. revert k.
  apply (map_fold_weak_ind
    (λ (result m : VectorClock), ∀ k,
       result !! k = match m !! k with
                     | Some t => Some (N.max (dim a k) t)
                     | None => a !! k
                     end)).
  - intros k. by rewrite lookup_empty.
  - intros i x m r Hi IH k. rewrite or0_dim.
    destruct (decide (i = k)) as [->|Hne].
    + rewrite !lookup_insert_eq. do 2 f_equal.
      unfold dim. by rewrite IH, Hi.
    + rewrite !lookup_insert_ne by done. apply IH.
Qed.

Lemma mergeVectorClocks_dim a b k :
  dim (mergeVectorClocks a b) k = N.max (dim a k) (dim b k).
Proof.
  unfold dim at 1 3. rewrite mergeVectorClocks_lookup.
  destruct (b !! k) as [t|]; simpl; [done|].
  fold (dim a k). lia.
Qed.


Lemma incrementVectorClock_lookup clock agentId k :
  incrementVectorClock clock agentId !! k =
    if decide (agentId = k) then Some (dim clock agentId + 1) else clock !! k.
Proof.
  unfold incrementVectorClock. rewrite or0_dim. apply lookup_insert.
Qed.

Lemma incrementVectorClock_dim clock agentId k :
  dim (incrementVectorClock clock agentId) k =
    if decide (agentId = k) then dim clock agentId + 1 else dim clock k.
Proof.
  unfold dim at 1. rewrite incrementVectorClock_lookup. by case_decide.
Qed.




End ClockFacts.

(* ====================================================================== *)
(** ** Facts about the hub *)
(* ====================================================================== *)

Section HubFacts.
Import Hub.
Local Open Scope Z_scope.
#[local] Arguments compareVectorClocks : simpl never.
#[local] Arguments mergeVectorClocks : simpl never.
#[local] Arguments incrementVectorClock : simpl never.

Variable env : Env.
Implicit Types w : World.
Implicit Types update : SyncUpdate.

Ltac run_eff :=
  unfold bind, tryCatch, getHub, modifyHub, dateNow, emitEvent, applyUpdate,
    sendSyncMessage, throw, ret; simpl.

(** A conflict is resolved without touching the hub or its collaborators;
    the wall clock is read only to stamp a placeholder local version. *)
Lemma resolveConflict_run update w :
  ∃ c n,
    resolveConflict env update w
      = (Returned c,
         mkWorld (hub w) (emitted w) (applied w) (sent w)
                 (n + clockReads w)%nat) ∧
    remoteVersion c = update ∧ recordId c = upd_id update.
Proof.
  destruct w as [h ev ap se reads]. unfold resolveConflict. run_eff.
  destruct (findLocalVersion (changeLog h) (upd_id update)) as [l|]; simpl.
  - eexists _, 0%nat. split; [reflexivity|].
    repeat case_decide; repeat case_match; done.
  - eexists _, 1%nat. split; [reflexivity|].
    repeat case_decide; repeat case_match; done.
Qed.

Lemma processRemoteUpdate_conflict update w :
  compareVectorClocks (vectorClock (hub w)) (upd_vectorClock update)
    = concurrent →
  ∃ c n,
    processRemoteUpdate env update w
      = (Returned (Some c),
         mkWorld (hub w)
                 (emitted w ++
                    [conflict_detected (upd_id update) (vectorClock (hub w))
                                       (upd_vectorClock update);
                     conflict_resolved (upd_id update) (resolution c)])
                 (applied w) (sent w) (n + clockReads w)%nat) ∧
    remoteVersion c = update.
Proof.
  intros Hcmp. unfold processRemoteUpdate.
  unfold bind at 1, getHub at 1. rewrite Hcmp. rewrite decide_True by done.
  unfold bind at 1, emitEvent at 1.
  unfold bind at 1.
  destruct (resolveConflict_run update
              (mkWorld (hub w)
                 (emitted w ++
                  [conflict_detected (upd_id update) (vectorClock (hub w))
                     (upd_vectorClock update)])
                 (applied w) (sent w) (clockReads w)))
    as (c & n & Hrun & Hc & _).
  rewrite Hrun. run_eff. exists c, n. rewrite <- app_assoc. done.
Qed.

Lemma processRemoteUpdate_apply update w :
  compareVectorClocks (vectorClock (hub w)) (upd_vectorClock update)
    ≠ concurrent →
  processRemoteUpdate env update w
    = (Returned None,
       mkWorld (set_vectorClock
                  (mergeVectorClocks (vectorClock (hub w))
                                     (upd_vectorClock update)) (hub w))
               (emitted w) (applied w ++ [update]) (sent w) (clockReads w)).
Proof.
  intros Hcmp. unfold processRemoteUpdate.
  unfold bind at 1, getHub at 1. rewrite decide_False by done.
  by run_eff.
Qed.

(** The loop over the pulled updates never throws.  It hands the
    non-conflicting updates to [applyUpdate] in order, merges their clocks
    into the hub's, collects one conflict per conflicting update, and
    leaves every other field of the hub as it was. *)
Lemma processRemoteUpdates_run remoteUpdates : ∀ conflicts w,
  ∃ found evs n,
    processRemoteUpdates env remoteUpdates conflicts w
      = (Returned (conflicts ++ found),
         mkWorld (set_vectorClock
                    (clockAfter (vectorClock (hub w)) remoteUpdates) (hub w))
                 (emitted w ++ evs)
                 (applied w ++ nonConflicting (vectorClock (hub w))
                                              remoteUpdates)
                 (sent w) (n + clockReads w)%nat) ∧
    map remoteVersion found = conflicting (vectorClock (hub w)) remoteUpdates ∧
    Forall isConflictEvent evs.
Proof.
  induction remoteUpdates as [|update rest IH]; intros conflicts w.
  - exists [], [], 0%nat. simpl. unfold ret. rewrite !app_nil_r.
    destruct w as [[] ? ? ? ?]. done.
  - simpl. unfold bind.
    destruct (decide (compareVectorClocks (vectorClock (hub w))
                        (upd_vectorClock update) = concurrent)) as [Hc|Hc].
    + destruct (processRemoteUpdate_conflict update w Hc)
        as (c & n & Hrun & Hrem).
      rewrite Hrun.
      edestruct (IH (conflicts ++ [c])) as (found & evs & m & Hrest & Hmap & Hev).
      rewrite Hrest. simpl.
      exists (c :: found),
        (conflict_detected (upd_id update) (vectorClock (hub w))
                           (upd_vectorClock update)
         :: conflict_resolved (upd_id update) (resolution c) :: evs),
        (m + n)%nat.
      rewrite <- !app_assoc. simpl. rewrite Nat.add_assoc.
      split; [done|]. split; [by rewrite Hmap, Hrem|].
      repeat constructor. done.
    + rewrite (processRemoteUpdate_apply update w Hc).
      edestruct (IH conflicts) as (found & evs & m & Hrest & Hmap & Hev).
      rewrite Hrest. simpl.
      exists found, evs, m. rewrite <- !app_assoc. done.
Qed.


Lemma clockAfter_dim_le remoteUpdates : ∀ clock k,
  (dim clock k ≤ dim (clockAfter clock remoteUpdates) k)%N.
Proof.
  induction remoteUpdates as [|update rest IH]; intros clock k; simpl.
  - lia.
  - case_decide; [apply IH|].
    etrans; [|apply IH]. rewrite mergeVectorClocks_dim. lia.
Qed.


Lemma pulled_updates_split remoteUpdates : ∀ clock,
  (length (nonConflicting clock remoteUpdates)
   + length (conflicting clock remoteUpdates))%nat = length remoteUpdates.
Proof.
  induction remoteUpdates as [|update rest IH]; intros clock; simpl; [done|].
  case_decide; simpl.
  - rewrite <- (IH clock). lia.
  - rewrite <- (IH (mergeVectorClocks clock (upd_vectorClock update))). lia.
Qed.

Lemma not_connected_run w :
  connected (hub w) = false →
  sync env w = (Thrown notConnected, w) ∧
  (∀ updates, forcePush env updates w = (Thrown notConnected, w)) ∧
  forcePull env w = (Thrown notConnected, w).
Proof.
  intros Hconn. unfold sync, forcePush, forcePull, bind, getHub, throw.
  by rewrite Hconn.
Qed.

(** C6: on a hub that is not connected, [sync], [forcePush] and [forcePull]
    throw the "not connected" error and leave the world exactly as it was:
    the same clock, change log and statistics ([totalSyncs] included), no
    event emitted, no message sent. *)
Theorem not_connected_calls_change_nothing w updates :
  connected (hub w) = false →
  sync env w = (Thrown notConnected, w) ∧
  forcePush env updates w = (Thrown notConnected, w) ∧
  forcePull env w = (Thrown notConnected, w).
Proof.
  intros Hconn. destruct (not_connected_run w Hconn) as (Hs & Hpush & Hpull).
  by rewrite Hs, Hpush, Hpull.
Qed.




Ltac resolve_cases :=
  unfold gtNum, ltNum, orElse;
  repeat case_decide; simpl;
  repeat match goal with
         | |- context [(?x <? ?y)%Z] => destruct (Z.ltb_spec x y)
         end;
  try done; try lia.

(** The decision taken by [resolveConflict], strategy by strategy, as the
    code takes it. *)
Lemma resolveConflict_decision update w :
  ∃ c w',
    resolveConflict env update w = (Returned c, w') ∧
    hub w' = hub w ∧ applied w' = applied w ∧
    remoteVersion c = update ∧ recordId c = upd_id update ∧
    let found := findLocalVersion (changeLog (hub w)) (upd_id update) in
    let strategy := conflictResolution (config (hub w)) in
    (strategy = "last-write-wins" →
     resolution c
       = if decide (default 0 (upd_timestamp <$> found)
                    < upd_timestamp update)
         then ResRemote else ResLocal) ∧
    (strategy = "first-write-wins" →
     (found = None → resolution c = ResRemote) ∧
     (∀ l, found = Some l → upd_timestamp l ≠ 0 →
           resolution c
             = if decide (upd_timestamp update < upd_timestamp l)
               then ResRemote else ResLocal) ∧
     (∀ l, found = Some l → upd_timestamp l = 0 →
           resolution c = ResRemote)) ∧
    (strategy = "merge" → resolution c = ResMerge) ∧
    (strategy ≠ "last-write-wins" → strategy ≠ "first-write-wins" →
     strategy ≠ "merge" →
     resolution c = ResSkip ∧ reason c = "No resolution strategy").
Proof.
  destruct w as [h ev ap se reads]. unfold resolveConflict. run_eff.
  destruct (findLocalVersion (changeLog h) (upd_id update)) as [l|]; simpl;
    (eexists _, _; split; [reflexivity|]; simpl;
     split; [done|]; split; [done|];
     split; [repeat case_decide; repeat case_match; done|];
     split; [repeat case_decide; repeat case_match; done|]);
    (split; [|split; [|split]]).
  - intros ->. simpl. resolve_cases.
  - intros ->. simpl. split; [done|].
    split; intros l' [= <-] Hl; resolve_cases.
  - intros ->. done.
  - intros ? ? ?. rewrite !decide_False by done. done.
  - intros ->. simpl. resolve_cases.
  - intros ->. simpl. split; [done|]. split; intros l' [=].
  - intros ->. done.
  - intros ? ? ?. rewrite !decide_False by done. done.
Qed.





End HubFacts.

(* ====================================================================== *)
(** ** The facts on concrete hubs *)
(* ====================================================================== *)

Section Instances.
Import Scenarios.
Local Open Scope Z_scope.

(** A freshly built hub is not connected: the three calls fail on it. *)
Lemma not_connected_calls_on_fresh_hub :
  connected (hub (newWorld cfgA)) = false ∧
  (sync envSimulated (newWorld cfgA) = (Thrown notConnected, newWorld cfgA) ∧
   forcePush envSimulated [localR1] (newWorld cfgA)
     = (Thrown notConnected, newWorld cfgA) ∧
   forcePull envSimulated (newWorld cfgA)
     = (Thrown notConnected, newWorld cfgA)).
Proof.
  split; [reflexivity|].
  exact (not_connected_calls_change_nothing envSimulated (newWorld cfgA)
           [localR1] eq_refl).
Defined.











(** What that pull applies and what it reports. *)
Example two_updates_split :
  nonConflicting
    (incrementVectorClock (vectorClock (hub connectedWithChange)) "A")
    [remoteR1; remoteAhead] = [remoteAhead] ∧
  conflicting
    (incrementVectorClock (vectorClock (hub connectedWithChange)) "A")
    [remoteR1; remoteAhead] = [remoteR1].
Proof. by vm_compute. Qed.

(** C4: under ['first-write-wins'] the remote side should win only when its
    timestamp is below the local version's.  Here it does not hold: the
    hub records a change to ["r1"] while [Date.now()] reads 0, then pulls a
    conflicting update of ["r1"] with timestamp 5.  The local version is
    found with timestamp 0 and 5 is not below 0, yet the resolution is
    ['remote'], with the reason "Remote has older timestamp": the test
    [localVersion?.timestamp || Infinity] takes the timestamp 0 for a
    missing one. *)
Theorem first_write_wins_zero_local_timestamp :
  match andThen (recordChange (envPull [remoteR1] 0) localR1)
          (andThen (connect (envPull [remoteR1] 0))
                   (sync (envPull [remoteR1] 0)))
          (newWorld (cfgWith "first-write-wins")) with
  | (Returned r, _) =>
      map (λ c, (upd_id (localVersion c), upd_timestamp (localVersion c),
                 upd_timestamp (remoteVersion c), resolution c, reason c))
          (resolvedConflicts r)
        = [("r1", 0, 5, ResRemote, "Remote has older timestamp")]
  | (Thrown _, _) => False
  end.
Proof. by vm_compute. Qed.

End Instances.

(* ====================================================================== *)
(** ** The causal order of vector clocks *)
(* ====================================================================== *)

Section ClockOrder.
Import Calls.
Local Open Scope N_scope.
Implicit Types a b c clock : VectorClock.
Implicit Types k agentId : string.












End ClockOrder.

(* ====================================================================== *)
(** ** The other methods of the hub and sequences of calls *)
(* ====================================================================== *)

Section CallFacts.
Import Calls.
Local Open Scope Z_scope.
#[local] Arguments compareVectorClocks : simpl never.
#[local] Arguments mergeVectorClocks : simpl never.
#[local] Arguments incrementVectorClock : simpl never.

Implicit Types w : World.
Implicit Types env : Env.

Ltac run_eff :=
  unfold bind, tryCatch, getHub, modifyHub, dateNow, emitEvent, applyUpdate,
    sendSyncMessage, throw, ret; simpl.

Lemma connect_run env w :
  connect env w =
    if connected (hub w) then (Returned tt, w)
    else (Returned tt,
          mkWorld (set_lastSyncTime (wallClock env (clockReads w))
                     (set_connected true (hub w)))
                  (emitted w ++ [ev_connected (agentId (config (hub w)))
                                              (endpoint (config (hub w)))])
                  (applied w) (sent w) (S (clockReads w))).
Proof. unfold connect. run_eff. by destruct (connected (hub w)). Qed.

Lemma disconnect_run w :
  disconnect w =
    if connected (hub w)
    then (Returned tt,
          mkWorld (set_connected false (hub w))
                  (emitted w ++ [ev_disconnected (agentId (config (hub w)))])
                  (applied w) (sent w) (clockReads w))
    else (Returned tt, w).
Proof. unfold disconnect. run_eff. by destruct (connected (hub w)). Qed.

Lemma forcePush_run env updates w :
  connected (hub w) = true →
  forcePush env updates w =
    let msg := pushMessage (hub w) (wallClock env (clockReads w)) updates in
    match transport env msg with
    | Returned _ =>
        (Returned tt,
         mkWorld (set_stats
                    (set_totalPushed
                       (totalPushed (stats (hub w)) + length updates)%nat
                       (stats (hub w))) (hub w))
                 (emitted w) (applied w) (sent w ++ [msg])
                 (S (clockReads w)))
    | Thrown e =>
        (Thrown e,
         mkWorld (hub w) (emitted w) (applied w) (sent w ++ [msg])
                 (S (clockReads w)))
    end.
Proof.
  intros Hconn. unfold forcePush. run_eff. rewrite Hconn. simpl.
  by destruct (transport env _).
Qed.

Lemma forcePull_run env w :
  connected (hub w) = true →
  forcePull env w =
    let msg := pullMessage (hub w) (wallClock env (clockReads w)) in
    match transport env msg with
    | Returned updates =>
        (Returned updates,
         mkWorld (set_stats
                    (set_totalPulled
                       (totalPulled (stats (hub w)) + length updates)%nat
                       (stats (hub w))) (hub w))
                 (emitted w) (applied w) (sent w ++ [msg])
                 (S (clockReads w)))
    | Thrown e =>
        (Thrown e,
         mkWorld (hub w) (emitted w) (applied w) (sent w ++ [msg])
                 (S (clockReads w)))
    end.
Proof.
  intros Hconn. unfold forcePull. run_eff. rewrite Hconn. simpl.
  by destruct (transport env _).
Qed.

Lemma recordChange_run env update w :
  recordChange env update w =
    (Returned tt,
     mkWorld (set_vectorClock
                (incrementVectorClock (vectorClock (hub w))
                                      (agentId (config (hub w))))
                (set_changeLog
                   (changeLog (hub w)
                    ++ [stamp update (vectorClock (hub w))
                              (wallClock env (clockReads w))])
                   (hub w)))
             (emitted w) (applied w) (sent w) (S (clockReads w))).
Proof. unfold recordChange. by run_eff. Qed.

(** The hub that a completed cycle leaves: the clock after the pull, an
    empty change log, the new [lastSyncTime], the statistics block and the
    duration pushed into the window. *)
Lemma sync_hub env w :
  let clock1 :=
    incrementVectorClock (vectorClock (hub w)) (agentId (config (hub w))) in
  hub (sync env w).2 = hub w ∧ connected (hub w) = false ∨
  connected (hub w) = true ∧
  (hub (sync env w).2 = set_vectorClock clock1 (hub w) ∨
   (∃ remoteUpdates,
      hub (sync env w).2
        = set_vectorClock (clockAfter clock1 remoteUpdates) (hub w)) ∨
   (∃ remoteUpdates conflicts d now,
      map remoteVersion conflicts = conflicting clock1 remoteUpdates ∧
      hub (sync env w).2
        = hub (updateAvgDuration d
                 (mkWorld
                    (commitStats (length remoteUpdates)
                       (length (changeLog (hub w))) conflicts
                       (set_lastSyncTime now
                          (set_changeLog []
                             (set_vectorClock
                                (clockAfter clock1 remoteUpdates) (hub w)))))
                    [] [] [] 0)).2)).
Proof.
  cbv zeta. destruct (connected (hub w)) eqn:Hconn.
  2: { left. by destruct (not_connected_run env w Hconn) as [-> _]. }
  right. split; [done|].
  unfold sync, syncCycle. run_eff. rewrite Hconn. simpl.
  destruct (transport env (pullMessage _ _)) as [remoteUpdates|e]; simpl.
  2: { by left. }
  match goal with
  | |- context [processRemoteUpdates env remoteUpdates [] ?w1] =>
      destruct (processRemoteUpdates_run env remoteUpdates [] w1)
        as (conflicts & evs & n & Hrun & Hmap & Hev)
  end.
  rewrite Hrun. clear Hrun. simpl in *.
  destruct (changeLog (hub w)) as [|u log] eqn:Hlog; simpl.
  - right. right. eexists remoteUpdates, conflicts, _, _.
    split; [done|]. unfold updateAvgDuration, modifyHub. simpl.
    unfold commitStats, set_stats. simpl. rewrite Hlog. reflexivity.
  - destruct (transport env (pushMessage _ _ _)) as [answer|e]; simpl.
    + right. right. eexists remoteUpdates, conflicts, _, _.
      split; [done|]. unfold updateAvgDuration, modifyHub. simpl.
      unfold commitStats, set_stats. simpl. reflexivity.
    + right. left. by exists remoteUpdates.
Qed.

(** Every call leaves the hub as it was or changes it in one of seven
    ways. *)
Lemma runCall_hub env c w :
  let h := hub w in
  let h' := hub (runCall env c w) in
  let clock1 := incrementVectorClock (vectorClock h) (agentId (config h)) in
  h' = h ∨
  (∃ t, h' = set_lastSyncTime t (set_connected true h)) ∨
  h' = set_connected false h ∨
  (∃ n, h' = set_stats (set_totalPushed (totalPushed (stats h) + n)%nat
                                        (stats h)) h) ∨
  (∃ n, h' = set_stats (set_totalPulled (totalPulled (stats h) + n)%nat
                                        (stats h)) h) ∨
  (∃ update t,
     h' = set_vectorClock clock1
            (set_changeLog (changeLog h ++ [stamp update (vectorClock h) t])
                           h)) ∨
  (∃ remoteUpdates,
     h' = set_vectorClock (clockAfter clock1 remoteUpdates) h) ∨
  (∃ remoteUpdates conflicts d now,
     map remoteVersion conflicts = conflicting clock1 remoteUpdates ∧
     h' = hub (updateAvgDuration d
                 (mkWorld
                    (commitStats (length remoteUpdates)
                       (length (changeLog h)) conflicts
                       (set_lastSyncTime now
                          (set_changeLog []
                             (set_vectorClock
                                (clockAfter clock1 remoteUpdates) h))))
                    [] [] [] 0)).2).
Proof.
  cbv zeta. destruct c as [| | |updates| |update]; cbn [runCall].
  - rewrite connect_run. destruct (connected (hub w)); simpl; eauto.
  - rewrite disconnect_run. destruct (connected (hub w)); simpl; eauto.
  - destruct (sync_hub env w) as [[-> _]|[_ [->|[(r & ->)|H]]]].
    + by left.
    + do 6 right. left. by exists [].
    + do 6 right. left. by exists r.
    + do 7 right. done.
  - destruct (connected (hub w)) eqn:Hconn.
    + rewrite (forcePush_run env updates w Hconn). simpl.
      destruct (transport env _); simpl; eauto 10.
    + destruct (not_connected_run env w Hconn) as (_ & -> & _). by left.
  - destruct (connected (hub w)) eqn:Hconn.
    + rewrite (forcePull_run env w Hconn). simpl.
      destruct (transport env _); simpl; eauto 10.
    + destruct (not_connected_run env w Hconn) as (_ & _ & ->). by left.
  - rewrite recordChange_run. simpl. do 5 right. left. eauto.
Qed.

Lemma runCalls_invariant (P : FederationHub → Prop) :
  (∀ env c w, P (hub w) → P (hub (runCall env c w))) →
  ∀ calls w, P (hub w) → P (hub (runCalls calls w)).
Proof.
  intros Hstep calls. induction calls as [|[env c] rest IH]; intros w Hw.
  - done.
  - simpl. apply IH, Hstep, Hw.
Qed.

Lemma conflicting_length clock remoteUpdates :
  (length (conflicting clock remoteUpdates) ≤ length remoteUpdates)%nat.
Proof. pose proof (pulled_updates_split remoteUpdates clock). lia. Qed.

Lemma windowMatchesSyncs_step env c w :
  windowMatchesSyncs (hub w) → windowMatchesSyncs (hub (runCall env c w)).
Proof.
  unfold windowMatchesSyncs. intros Hinv.
  destruct (runCall_hub env c w)
    as [->|[(t & ->)|[->|[(n & ->)|[(n & ->)|[(u & t & ->)|[(r & ->)|H]]]]]]];
    try done.
  destruct H as (r & cs & d & now & _ & ->).
  unfold updateAvgDuration, modifyHub. simpl.
  rewrite length_app in *. simpl.
  destruct (Nat.ltb_spec 100 (length (syncDurations (hub w)) + 1)).
  - destruct (syncDurations (hub w) ++ [d]) as [|x l] eqn:Hl.
    { by destruct (syncDurations (hub w)). }
    simpl. apply (f_equal length) in Hl. rewrite length_app in Hl.
    simpl in Hl. lia.
  - rewrite length_app. simpl. lia.
Qed.


Lemma countersOrdered_step env c w :
  countersOrdered (hub w) → countersOrdered (hub (runCall env c w)).
Proof.
  unfold countersOrdered. intros [H1 H2].
  destruct (runCall_hub env c w)
    as [->|[(t & ->)|[->|[(n & ->)|[(n & ->)|[(u & t & ->)|[(r & ->)|H]]]]]]];
    simpl; try done; try lia.
  destruct H as (r & cs & d & now & Hmap & ->).
  unfold updateAvgDuration, modifyHub. simpl.
  pose proof (length_filter (λ c0, notSkipped c0 = true) cs).
  assert (length cs ≤ length r)%nat.
  { rewrite <- (length_map remoteVersion), Hmap. apply conflicting_length. }
  lia.
Qed.


Lemma increment_le (clock : VectorClock) agentId :
  clockLe clock (incrementVectorClock clock agentId).
Proof.
  intros k. rewrite incrementVectorClock_dim. case_decide; subst; lia.
Qed.

Lemma clockAfter_le clock remoteUpdates :
  clockLe clock (clockAfter clock remoteUpdates).
Proof. intros k. apply clockAfter_dim_le. Qed.

Lemma clockLe_trans (a b c : VectorClock) :
  clockLe a b → clockLe b c → clockLe a c.
Proof. intros H1 H2 k. specialize (H1 k). specialize (H2 k). lia. Qed.

Lemma runCall_clock_le env c w :
  clockLe (vectorClock (hub w)) (vectorClock (hub (runCall env c w))) ∧
  config (hub (runCall env c w)) = config (hub w).
Proof.
  destruct (runCall_hub env c w)
    as [->|[(t & ->)|[->|[(n & ->)|[(n & ->)|[(u & t & ->)|[(r & ->)|H]]]]]]];
    simpl; try (split; [intros k; lia | done]).
  - split; [apply increment_le | done].
  - split; [|done].
    eapply clockLe_trans; [apply increment_le | apply clockAfter_le].
  - destruct H as (r & cs & d & now & _ & ->).
    unfold updateAvgDuration, modifyHub. simpl. split; [|done].
    eapply clockLe_trans; [apply increment_le | apply clockAfter_le].
Qed.


(** X5: on a hub built by the constructor and used through any sequence of
    calls, whatever the transport does, the window of durations holds one
    entry per completed cycle up to 100: its length is
    [min totalSyncs 100]. *)
Theorem duration_window_tracks_completed_syncs cfg calls :
  let h := hub (runCalls calls (newWorld cfg)) in
  length (syncDurations h) = Nat.min (totalSyncs (stats h)) 100 ∧
  (length (syncDurations h) ≤ 100)%nat.
Proof.
  cbv zeta.
  assert (H : windowMatchesSyncs (hub (runCalls calls (newWorld cfg)))).
  { apply runCalls_invariant; [apply windowMatchesSyncs_step | done]. }
  unfold windowMatchesSyncs in H. split; [done | lia].
Qed.


(** X7: on such a hub the counters stay ordered:
    [totalResolved ≤ totalConflicts ≤ totalPulled]. *)
Theorem sync_counters_stay_ordered cfg calls :
  let s := stats (hub (runCalls calls (newWorld cfg))) in
  (totalResolved s ≤ totalConflicts s)%nat ∧
  (totalConflicts s ≤ totalPulled s)%nat.
Proof.
  cbv zeta.
  apply (runCalls_invariant countersOrdered);
    [apply countersOrdered_step | by unfold countersOrdered].
Qed.


Lemma runCalls_clock_le calls : ∀ w,
  clockLe (vectorClock (hub w)) (vectorClock (hub (runCalls calls w))) ∧
  config (hub (runCalls calls w)) = config (hub w).
Proof.
  induction calls as [|[env c] rest IH]; intros w; simpl.
  - split; [intros k; lia | done].
  - destruct (IH (runCall env c w)) as [Hle Hcfg].
    destruct (runCall_clock_le env c w) as [Hle' Hcfg'].
    split; [|congruence]. by eapply clockLe_trans.
Qed.

(** X9: no call ever lowers a dimension of the hub's clock or changes the
    hub's configuration, whether it returns or throws: after any sequence
    of calls the clock is at or above the clock before it. *)
Theorem clock_never_goes_back calls w :
  (∀ k, (dim (vectorClock (hub w)) k
         ≤ dim (vectorClock (hub (runCalls calls w))) k)%N) ∧
  config (hub (runCalls calls w)) = config (hub w).
Proof. apply runCalls_clock_le. Qed.




(** X13: on a connected hub [forcePush] sends one push message carrying
    exactly the given updates and the hub's current clock.  When the
    transport returns, [totalPushed] grows by their number; when it throws,
    the error is passed on and the hub is unchanged.  In both cases the
    change log is not cleared, [totalSyncs] is not counted, the clock is
    not incremented and no event is emitted. *)
Theorem forcePush_touches_only_totalPushed env updates w :
  connected (hub w) = true →
  let msg := pushMessage (hub w) (wallClock env (clockReads w)) updates in
  let w' := (forcePush env updates w).2 in
  sent w' = sent w ++ [msg] ∧
  emitted w' = emitted w ∧
  applied w' = applied w ∧
  changeLog (hub w') = changeLog (hub w) ∧
  vectorClock (hub w') = vectorClock (hub w) ∧
  totalSyncs (stats (hub w')) = totalSyncs (stats (hub w)) ∧
  match transport env msg with
  | Returned _ =>
      (forcePush env updates w).1 = Returned tt ∧
      totalPushed (stats (hub w'))
        = (totalPushed (stats (hub w)) + length updates)%nat
  | Thrown e =>
      (forcePush env updates w).1 = Thrown e ∧ hub w' = hub w
  end.
Proof.
  intros Hconn. cbv zeta. rewrite (forcePush_run env updates w Hconn).
  cbv zeta. by destruct (transport env _).
Qed.

(** X14: on a connected hub [forcePull] sends one pull message with the
    hub's current clock and returns the transport's answer as it is.  The
    pulled updates are not checked for conflicts, not applied and not
    merged into the clock; only [totalPulled] grows by their number.  When
    the transport throws, the error is passed on and the hub is unchanged. *)
Theorem forcePull_returns_updates_unprocessed env w :
  connected (hub w) = true →
  let msg := pullMessage (hub w) (wallClock env (clockReads w)) in
  let w' := (forcePull env w).2 in
  sent w' = sent w ++ [msg] ∧
  emitted w' = emitted w ∧
  applied w' = applied w ∧
  changeLog (hub w') = changeLog (hub w) ∧
  vectorClock (hub w') = vectorClock (hub w) ∧
  totalSyncs (stats (hub w')) = totalSyncs (stats (hub w)) ∧
  totalConflicts (stats (hub w')) = totalConflicts (stats (hub w)) ∧
  match transport env msg with
  | Returned updates =>
      (forcePull env w).1 = Returned updates ∧
      totalPulled (stats (hub w'))
        = (totalPulled (stats (hub w)) + length updates)%nat
  | Thrown e =>
      (forcePull env w).1 = Thrown e ∧ hub w' = hub w
  end.
Proof.
  intros Hconn. cbv zeta. rewrite (forcePull_run env w Hconn).
  cbv zeta. by destruct (transport env _).
Qed.









Lemma findLocalVersion_first log recordId0 l1 l l2 :
  log = l1 ++ l :: l2 →
  Forall (λ u, upd_id u ≠ recordId0) l1 →
  upd_id l = recordId0 →
  findLocalVersion log recordId0 = Some l.
Proof.
  intros -> Hl1 Hl. unfold findLocalVersion.
  induction Hl1 as [|x l1 Hx _ IH]; simpl.
  - by rewrite bool_decide_eq_true_2.
  - by rewrite bool_decide_eq_false_2.
Qed.

Lemma findLocalVersion_none log recordId0 :
  Forall (λ u, upd_id u ≠ recordId0) log →
  findLocalVersion log recordId0 = None.
Proof.
  unfold findLocalVersion. induction 1 as [|x l Hx _ IH]; simpl; [done|].
  by rewrite bool_decide_eq_false_2.
Qed.

(** X20: [resolveConflict] changes nothing on the hub, emits nothing and
    applies nothing.  The local version it reports is the first pending
    change for the record in the change log, the oldest one when several
    are pending; when no pending change has the record's id, it is a
    placeholder with the remote id, operation ['update'], no data, the
    hub's clock and the current wall time. *)
Theorem resolveConflict_compares_first_pending_change env update w :
  ∃ c n,
    resolveConflict env update w
      = (Returned c,
         mkWorld (hub w) (emitted w) (applied w) (sent w)
                 (n + clockReads w)%nat) ∧
    remoteVersion c = update ∧
    recordId c = upd_id update ∧
    (∀ l1 l l2,
       changeLog (hub w) = l1 ++ l :: l2 →
       Forall (λ u, upd_id u ≠ upd_id update) l1 →
       upd_id l = upd_id update →
       localVersion c = l ∧ n = 0%nat) ∧
    (Forall (λ u, upd_id u ≠ upd_id update) (changeLog (hub w)) →
     localVersion c
       = mkSyncUpdate (upd_id update) OpUpdate None (vectorClock (hub w))
                      (wallClock env (clockReads w)) ∧
     n = 1%nat).
Proof.
  destruct w as [h ev ap se reads]. unfold resolveConflict. run_eff.
  destruct (findLocalVersion (changeLog h) (upd_id update)) as [l|] eqn:Hf;
    simpl.
  - eexists _, 0%nat. split; [reflexivity|].
    split; [repeat case_decide; repeat case_match; done|].
    split; [repeat case_decide; repeat case_match; done|]. split.
    + intros l1 l' l2 Hlog Hl1 Hl'.
      rewrite (findLocalVersion_first _ _ l1 l' l2 Hlog Hl1 Hl') in Hf.
      injection Hf as ->.
      split; [repeat case_decide; repeat case_match; done | done].
    + intros Hnone. by rewrite (findLocalVersion_none _ _ Hnone) in Hf.
  - eexists _, 1%nat. split; [reflexivity|].
    split; [repeat case_decide; repeat case_match; done|].
    split; [repeat case_decide; repeat case_match; done|]. split.
    + intros l1 l' l2 Hlog Hl1 Hl'.
      by rewrite (findLocalVersion_first _ _ l1 l' l2 Hlog Hl1 Hl') in Hf.
    + intros _. split; [repeat case_decide; repeat case_match; done | done].
Qed.

Ltac decision_cases :=
  unfold gtNum, ltNum, orElse;
  repeat case_decide; simpl;
  repeat match goal with
         | |- context [(?x <? ?y)%Z] => destruct (Z.ltb_spec x y)
         end;
  try done; try lia.

(** X21: the resolution depends only on the configured strategy and on the
    two timestamps.  Under ['last-write-wins'] the remote side wins exactly
    when its timestamp is above the local one (0 without a local version),
    so a tie goes to the local side.  Under ['first-write-wins'] the remote
    side wins when there is no local version, when the local timestamp is
    0, or when the remote timestamp is below the local one.  ['merge']
    gives a merge, and every other strategy, ['custom'] included, gives a
    skip. *)
Theorem resolveConflict_decision_table env update w :
  let found := findLocalVersion (changeLog (hub w)) (upd_id update) in
  let strategy := conflictResolution (config (hub w)) in
  ∃ c w',
    resolveConflict env update w = (Returned c, w') ∧
    resolution c
      = if decide (strategy = "last-write-wins") then
          if decide (default 0 (upd_timestamp <$> found)
                     < upd_timestamp update)
          then ResRemote else ResLocal
        else if decide (strategy = "first-write-wins") then
          match found with
          | None => ResRemote
          | Some l =>
              if decide (upd_timestamp l = 0
                         ∨ upd_timestamp update < upd_timestamp l)
              then ResRemote else ResLocal
          end
        else if decide (strategy = "merge") then ResMerge
        else ResSkip.
Proof.
  cbv zeta. destruct w as [h ev ap se reads].
  unfold resolveConflict. run_eff.
  destruct (findLocalVersion (changeLog h) (upd_id update)) as [l|]; simpl;
    (eexists _, _; split; [reflexivity|]).
  - destruct (decide (conflictResolution (config h) = "last-write-wins"));
      [decision_cases|].
    destruct (decide (conflictResolution (config h) = "first-write-wins"));
      [decision_cases|].
    by destruct (decide (conflictResolution (config h) = "merge")).
  - destruct (decide (conflictResolution (config h) = "last-write-wins"));
      [decision_cases|].
    destruct (decide (conflictResolution (config h) = "first-write-wins"));
      [decision_cases|].
    by destruct (decide (conflictResolution (config h) = "merge")).
Qed.


End CallFacts.

(* ====================================================================== *)
(** ** The further facts on concrete hubs *)
(* ====================================================================== *)

Section CallInstances.
Import Calls Scenarios.
Local Open Scope Z_scope.



(** A forced push of one update on a connected hub with the transport of
    the source. *)
Lemma forcePush_on_connected_hub :
  let w := (connect envSimulated (newWorld cfgA)).2 in
  let msg :=
    pushMessage (hub w) (wallClock envSimulated (clockReads w)) [localR1] in
  let w' := (forcePush envSimulated [localR1] w).2 in
  sent w' = sent w ++ [msg] ∧
  emitted w' = emitted w ∧
  applied w' = applied w ∧
  changeLog (hub w') = changeLog (hub w) ∧
  vectorClock (hub w') = vectorClock (hub w) ∧
  totalSyncs (stats (hub w')) = totalSyncs (stats (hub w)) ∧
  (forcePush envSimulated [localR1] w).1 = Returned tt ∧
  totalPushed (stats (hub w')) = 1%nat.
Proof.
  exact (forcePush_touches_only_totalPushed envSimulated [localR1]
           (connect envSimulated (newWorld cfgA)).2 eq_refl).
Defined.

(** A forced pull on a connected hub that gets a conflicting update. *)
Lemma forcePull_on_connected_hub :
  let env := envPull [remoteR1] 1000 in
  let w := (connect env (newWorld cfgA)).2 in
  let msg := pullMessage (hub w) (wallClock env (clockReads w)) in
  let w' := (forcePull env w).2 in
  sent w' = sent w ++ [msg] ∧
  emitted w' = emitted w ∧
  applied w' = applied w ∧
  changeLog (hub w') = changeLog (hub w) ∧
  vectorClock (hub w') = vectorClock (hub w) ∧
  totalSyncs (stats (hub w')) = totalSyncs (stats (hub w)) ∧
  totalConflicts (stats (hub w')) = totalConflicts (stats (hub w)) ∧
  (forcePull env w).1 = Returned [remoteR1] ∧
  totalPulled (stats (hub w')) = 1%nat.
Proof.
  exact (forcePull_returns_updates_unprocessed (envPull [remoteR1] 1000)
           (connect (envPull [remoteR1] 1000) (newWorld cfgA)).2 eq_refl).
Defined.






(** Two pending changes to ["r1"], an insert and then a delete: the
    conflict is reported against the insert. *)
Lemma resolveConflict_on_two_pending_changes :
  let first := mkSyncUpdate "r1" OpInsert None (<["A" := 0%N]> ∅) 1000 in
  let second := mkSyncUpdate "r1" OpDelete None (<["A" := 1%N]> ∅) 1001 in
  let w :=
    (andThen (recordChange envSimulated
                (mkSyncUpdate "r1" OpInsert None ∅ 0))
             (recordChange envSimulated
                (mkSyncUpdate "r1" OpDelete None ∅ 0))
             (newWorld cfgA)).2 in
  changeLog (hub w) = [first; second] ∧
  ∃ c n,
    resolveConflict envSimulated remoteR1 w
      = (Returned c,
         mkWorld (hub w) (emitted w) (applied w) (sent w)
                 (n + clockReads w)%nat) ∧
    localVersion c = first ∧ n = 0%nat.
Proof.
  cbv zeta. split; [by vm_compute|].
  destruct (resolveConflict_compares_first_pending_change envSimulated
              remoteR1
              (andThen (recordChange envSimulated
                          (mkSyncUpdate "r1" OpInsert None ∅ 0))
                       (recordChange envSimulated
                          (mkSyncUpdate "r1" OpDelete None ∅ 0))
                       (newWorld cfgA)).2)
    as (c & n & Hrun & _ & _ & Hfirst & _).
  exists c, n. split; [exact Hrun|].
  apply (Hfirst [] _ [mkSyncUpdate "r1" OpDelete None (<["A" := 1%N]> ∅)
                                   1001]).
  - by vm_compute.
  - constructor.
  - reflexivity.
Defined.


End CallInstances.
